(** * The predict flow of [app/main.py]

    A shallow embedding of the request handler [predict] and of its helper
    [_simple_inference], together with the Python builtins they call
    ([str.strip], [str.split], [sorted], [max], list slicing, [float]). *)

From Stdlib Require Import ZArith NArith List Bool Lia Ascii String.
From Stdlib Require Import Permutation Sorted.
From Stdlib Require Import Floats.SpecFloat.
Import ListNotations.

Local Open Scope Z_scope.

(** ** Python builtins *)

Module Py.

(** A Python [str] is a sequence of Unicode code points; [len] counts them. *)
Definition char := N.
Definition str := list char.

Definition len {A : Type} (l : list A) : Z := Z.of_nat (List.length l).

(** Embedding of ASCII literals. *)
Definition lit (s : string) : str := List.map N_of_ascii (list_ascii_of_string s).

(** [Py_UNICODE_ISSPACE]: the code points that [str.split()] and
    [str.strip()] treat as whitespace. *)
Definition isspace (c : char) : bool :=
  ((9 <=? c) && (c <=? 13) || (28 <=? c) && (c <=? 32)
   || (c =? 133) || (c =? 160) || (c =? 5760)
   || (8192 <=? c) && (c <=? 8202)
   || (c =? 8232) || (c =? 8233) || (c =? 8239) || (c =? 8287)
   || (c =? 12288))%N.

Definition nonspace (c : char) : bool := negb (isspace c).

(** [s.lstrip()], [s.rstrip()] and [s.strip()] with no argument. *)
Fixpoint lstrip (s : str) : str :=
  match s with
  | [] => []
  | c :: s' => if isspace c then lstrip s' else s
  end.

Definition rstrip (s : str) : str := rev (lstrip (rev s)).

Definition strip (s : str) : str := rstrip (lstrip s).

(** [s.split()] with no argument: the scan of [split_whitespace], with the
    token being gathered held in [tok]. *)
Fixpoint split_from (tok : str) (s : str) : list str :=
  match s with
  | [] => match tok with [] => [] | _ => [tok] end
  | c :: s' =>
      if isspace c
      then match tok with
           | [] => split_from [] s'
           | _ => tok :: split_from [] s'
           end
      else split_from (tok ++ [c]) s'
  end.

Definition split (s : str) : list str := split_from [] s.

(** The stable ascending sort behind [sorted] and [list.sort], keyed by an
    integer.  An element is inserted in front of the first element whose key
    is not smaller, so elements with equal keys keep their order. *)
Section Sort.
Context {A : Type}.
Variable key : A -> Z.

Fixpoint insert (x : A) (l : list A) : list A :=
  match l with
  | [] => [x]
  | y :: l' => if key x <=? key y then x :: l else y :: insert x l'
  end.

Fixpoint sort (l : list A) : list A :=
  match l with
  | [] => []
  | x :: l' => insert x (sort l')
  end.

(** [sorted(l, key=key, reverse=reverse)].  As in [list.sort], a reverse
    sort reverses the list, sorts it forward and reverses the result, which
    keeps the sort stable. *)
Definition sorted (reverse : bool) (l : list A) : list A :=
  if reverse then rev (sort (rev l)) else sort l.
End Sort.

(** [s.split(sep)] for a one-character [sep]: the scan of [split_char],
    with the part being gathered held in [part].  Every occurrence of [sep]
    ends a part, empty parts included. *)
Fixpoint split_char_from (sep : char) (part : str) (s : str) : list str :=
  match s with
  | [] => [part]
  | c :: s' =>
      if (c =? sep)%N then part :: split_char_from sep [] s'
      else split_char_from sep (part ++ [c]) s'
  end.

Definition split_char (sep : char) (s : str) : list str :=
  split_char_from sep [] s.

(** [sep.join(parts)]. *)
Fixpoint join (sep : str) (parts : list str) : str :=
  match parts with
  | [] => []
  | [p] => p
  | p :: ps => p ++ sep ++ join sep ps
  end.

(** [max(a, b)] on integers: the later argument wins only when strictly
    greater. *)
Definition max (a b : Z) : Z := if b >? a then b else a.

(** [l[:stop]]: a negative [stop] counts from the end. *)
Definition slice_to {A : Type} (l : list A) (stop : Z) : list A :=
  if stop <? 0 then firstn (Z.to_nat (Z.max 0 (len l + stop))) l
  else firstn (Z.to_nat stop) l.

(** [float(n)] for an integer [n]: the nearest binary64 value. *)
Definition float (n : Z) : spec_float := binary_normalize 53 1024 n 0 false.

End Py.

(** One entry of the list that [_simple_inference] returns: the dict
    [{"token": t, "score": float(len(t))}]. *)
Record ScoredToken := { token : Py.str; score : spec_float }.

Module PredictRequest.
Record t := { text : Py.str; top_k : option Z }.
End PredictRequest.

Module PredictResponse.
Record t := { input : Py.str; top_k : Z; predictions : list ScoredToken }.
End PredictResponse.

(** ** The application *)

Module App.

(** What a call raises. *)
Inductive exn :=
| HTTPException (status_code : Z) (detail : string)
| TypeError.

Inductive result (A : Type) :=
| Return (a : A)
| Raise (e : exn).
Arguments Return {A} a.
Arguments Raise {A} e.

(** A task queued on [BackgroundTasks]: the call [logger.info(msg)], the
    message kept by the two values it interpolates. *)
Record task := { logged_length : Z; logged_top_k : option Z }.

Definition BackgroundTasks := list task.

Definition add_task (background_tasks : BackgroundTasks) (t : task)
  : BackgroundTasks := background_tasks ++ [t].

Definition _simple_inference (text : Py.str) (top_k : Z) : list ScoredToken :=
  let words := Py.split text in
  let scored := Py.sorted Py.len true words in
  let top := Py.slice_to scored (Py.max 1 top_k) in
  List.map (fun t => {| token := t; score := Py.float (Py.len t) |}) top.

(** The handler of [POST /predict], on a request that passed validation.
    [top_k] is [Optional[int]]: on [None] the call [max(1, None)] inside
    [_simple_inference] raises [TypeError]. *)
Definition predict (req : PredictRequest.t) (background_tasks : BackgroundTasks)
  : result PredictResponse.t * BackgroundTasks :=
  let text := Py.strip (PredictRequest.text req) in
  match text with
  | [] => (Raise (HTTPException 400 "text must not be empty"), background_tasks)
  | _ =>
      match PredictRequest.top_k req with
      | None => (Raise TypeError, background_tasks)
      | Some k =>
          let predictions := _simple_inference text k in
          let background_tasks :=
            add_task background_tasks
              {| logged_length := Py.len text;
                 logged_top_k := PredictRequest.top_k req |} in
          (Return {| PredictResponse.input := text;
                     PredictResponse.top_k := k;
                     PredictResponse.predictions := predictions |},
           background_tasks)
      end
  end.

(** [os.environ]: the variables that are set, by name. *)
Definition environ := string -> option Py.str.

(** [os.getenv(key, default)]. *)
Definition getenv (env : environ) (key : string) (default : Py.str) : Py.str :=
  match env key with
  | Some v => v
  | None => default
  end.

(** The [allow_origins] list handed to [CORSMiddleware]:
    [os.getenv("CORS_ALLOW_ORIGINS", "*").split(",")]. *)
Definition allow_origins (env : environ) : list Py.str :=
  Py.split_char 44%N (getenv env "CORS_ALLOW_ORIGINS" (Py.lit "*")).

End App.

(** ** Specification vocabulary *)

(** [whitespace_delimited s toks]: [toks] are the maximal whitespace-free
    runs of [s], from left to right. *)
Inductive whitespace_delimited : Py.str -> list Py.str -> Prop :=
| wd_blank ws :
    forallb Py.isspace ws = true ->
    whitespace_delimited ws []
| wd_token ws tok rest toks :
    forallb Py.isspace ws = true ->
    tok <> [] ->
    forallb Py.nonspace tok = true ->
    match rest with [] => True | c :: _ => Py.isspace c = true end ->
    whitespace_delimited rest toks ->
    whitespace_delimited (ws ++ tok ++ rest) (tok :: toks).

(** The outcome of a call, seen through a projection of its value. *)
Definition result_map {A B : Type} (f : A -> B) (r : App.result A)
  : App.result B :=
  match r with
  | App.Return a => App.Return (f a)
  | App.Raise e => App.Raise e
  end.

(** The integer that a binary64 value stands for, when it is one. *)
Definition float_integer (f : spec_float) : option Z :=
  match f with
  | S754_zero _ => Some 0
  | S754_finite s m e =>
      let v := if s then Z.neg m else Z.pos m in
      if 0 <=? e then Some (v * 2 ^ e)
      else if v mod 2 ^ (- e) =? 0 then Some (v / 2 ^ (- e)) else None
  | _ => None
  end.

(** The integer a prediction's score stands for. *)
Definition score_integer (p : ScoredToken) : Z :=
  match float_integer (score p) with
  | Some n => n
  | None => -1
  end.

(** The characters of a string that lie in its whitespace-separated parts. *)
Definition nonspace_chars (s : Py.str) : Py.str := filter Py.nonspace s.

(** A string without a comma. *)
Definition comma_free (p : Py.str) : bool :=
  forallb (fun c => negb (c =? 44)%N) p.

(** Descending order of keys. *)
Definition descending {A : Type} (key : A -> Z) : list A -> Prop :=
  StronglySorted (fun a b => key b <= key a).

(** [stable key l l']: elements of equal key appear in [l'] as they do
    in [l]. *)
Definition stable {A : Type} (key : A -> Z) (l l' : list A) : Prop :=
  forall n, filter (fun x => key x =? n) l' = filter (fun x => key x =? n) l.

(** ** Facts about the builtins *)

Section SplitFacts.
Import Py.

Lemma split_space c s : isspace c = true -> split (c :: s) = split s.
Proof. intros H. unfold split. simpl. now rewrite H. Qed.

Lemma split_blank ws s :
  forallb isspace ws = true -> split (ws ++ s) = split s.
Proof.
  induction ws as [|c ws IH]; simpl; intros H; [reflexivity|].
  apply andb_true_iff in H as [Hc Hws].
  now rewrite split_space, IH.
Qed.

Lemma split_from_run tok acc s :
  forallb nonspace tok = true ->
  split_from acc (tok ++ s) = split_from (acc ++ tok) s.
Proof.
  revert acc. induction tok as [|c tok IH]; simpl; intros acc H.
  - now rewrite app_nil_r.
  - apply andb_true_iff in H as [Hc Htok].
    unfold nonspace in Hc. apply negb_true_iff in Hc. rewrite Hc.
    rewrite IH by assumption. now rewrite <- app_assoc.
Qed.

Lemma split_token tok s :
  tok <> [] ->
  forallb nonspace tok = true ->
  match s with [] => True | c :: _ => isspace c = true end ->
  split (tok ++ s) = tok :: split s.
Proof.
  intros Hne Htok Hs. unfold split.
  rewrite split_from_run by assumption. simpl.
  destruct s as [|c r]; simpl.
  - destruct tok; [contradiction|reflexivity].
  - rewrite Hs. destruct tok; [contradiction|reflexivity].
Qed.

Lemma split_from_nil acc s :
  split_from acc s = [] <-> acc = [] /\ forallb isspace s = true.
Proof.
  revert acc. induction s as [|c s IH]; simpl; intros acc.
  - destruct acc; intuition congruence.
  - destruct (isspace c) eqn:Hc; simpl.
    + destruct acc; [rewrite IH; intuition|intuition congruence].
    + rewrite IH. split; [|intuition congruence].
      intros [H _]. now destruct acc.
Qed.

Lemma split_nil s : split s = [] <-> forallb isspace s = true.
Proof. unfold split. rewrite split_from_nil. intuition. Qed.

(** Every string splits into a whitespace prefix and a rest that is empty
    or starts a token. *)
Lemma lstrip_spec s :
  exists ws, s = ws ++ lstrip s /\ forallb isspace ws = true
             /\ match lstrip s with [] => True | c :: _ => isspace c = false end.
Proof.
  induction s as [|c s (ws & E & Hws & Hhd)]; simpl.
  - exists []. auto.
  - destruct (isspace c) eqn:Hc.
    + exists (c :: ws). simpl. rewrite Hc. repeat split; auto. congruence.
    + exists []. simpl. auto.
Qed.

(** A string that starts outside whitespace starts with a token. *)
Lemma token_prefix s :
  exists tok rest, s = tok ++ rest /\ forallb nonspace tok = true
    /\ match rest with [] => True | c :: _ => isspace c = true end.
Proof.
  induction s as [|c s (tok & rest & E & Htok & Hrest)].
  - exists [], []. auto.
  - destruct (isspace c) eqn:Hc.
    + exists [], (c :: s). auto.
    + exists (c :: tok), rest. simpl. unfold nonspace at 1. rewrite Hc.
      repeat split; auto. congruence.
Qed.

Lemma split_whitespace_delimited s : whitespace_delimited s (split s).
Proof.
  remember (List.length s) as n eqn:Hn. revert s Hn.
  induction n as [n IH] using lt_wf_ind. intros s Hn.
  destruct (lstrip_spec s) as (ws & E & Hws & Hhd).
  destruct (lstrip s) as [|c r] eqn:Hl.
  - rewrite app_nil_r in E. subst ws.
    apply split_nil in Hws as Hs. rewrite Hs. now constructor.
  - destruct (token_prefix r) as (tok & rest & Er & Htok & Hrest).
    assert (Htok' : forallb nonspace (c :: tok) = true).
    { simpl. unfold nonspace at 1. now rewrite Hhd, Htok. }
    assert (Hs : s = ws ++ (c :: tok) ++ rest).
    { rewrite E, Er. reflexivity. }
    rewrite Hs at 2. rewrite split_blank, split_token by (auto; discriminate).
    rewrite Hs at 1. constructor; auto; try discriminate.
    apply (IH (List.length rest)); [|reflexivity].
    subst n. rewrite Hs. rewrite !length_app. simpl. lia.
Qed.

Lemma whitespace_delimited_split s toks :
  whitespace_delimited s toks -> toks = split s.
Proof.
  induction 1 as [ws Hws|ws tok rest toks Hws Hne Htok Hrest _ IH].
  - symmetry. now apply split_nil.
  - rewrite split_blank, split_token by assumption. now f_equal.
Qed.

(** Tokens are non-empty and free of whitespace. *)
Lemma whitespace_delimited_tokens s toks :
  whitespace_delimited s toks ->
  Forall (fun t => t <> [] /\ forallb nonspace t = true) toks.
Proof. induction 1; constructor; auto. Qed.
End SplitFacts.

Section StripFacts.
Import Py.

Lemma forallb_rev {A : Type} (f : A -> bool) (l : list A) :
  forallb f (rev l) = forallb f l.
Proof.
  induction l as [|x l IH]; simpl; [reflexivity|].
  rewrite forallb_app, IH. simpl. rewrite andb_true_r. apply andb_comm.
Qed.

Lemma lstrip_nil s : lstrip s = [] <-> forallb isspace s = true.
Proof.
  induction s as [|c s IH]; simpl; [intuition|].
  destruct (isspace c); simpl; [exact IH|intuition discriminate].
Qed.

Lemma strip_nil s : strip s = [] <-> forallb isspace s = true.
Proof.
  unfold strip, rstrip. rewrite <- lstrip_nil.
  split; intros H.
  - apply (f_equal (@rev char)) in H. rewrite rev_involutive in H. simpl in H.
    apply lstrip_nil in H. rewrite forallb_rev in H.
    destruct (lstrip_spec s) as (_ & _ & _ & Hhd).
    destruct (lstrip s) as [|c r]; [reflexivity|].
    simpl in H. rewrite Hhd in H. discriminate.
  - rewrite H. reflexivity.
Qed.

(** [strip] removes a whitespace prefix and a whitespace suffix, and what
    is left neither starts nor ends with whitespace. *)
Lemma strip_spec s :
  exists ws1 ws2,
    s = ws1 ++ strip s ++ ws2
    /\ forallb isspace ws1 = true /\ forallb isspace ws2 = true
    /\ match strip s with [] => True | c :: _ => isspace c = false end
    /\ match rev (strip s) with [] => True | c :: _ => isspace c = false end.
Proof.
  destruct (lstrip_spec s) as (ws1 & E1 & Hws1 & Hhd).
  destruct (lstrip_spec (rev (lstrip s))) as (ws2 & E2 & Hws2 & Hlast).
  assert (E : lstrip s = strip s ++ rev ws2).
  { unfold strip, rstrip. rewrite <- rev_app_distr, <- E2.
    now rewrite rev_involutive. }
  exists ws1, (rev ws2). repeat split.
  - now rewrite <- E.
  - assumption.
  - now rewrite forallb_rev.
  - destruct (strip s) as [|c r] eqn:Hs; [exact I|].
    rewrite E in Hhd. exact Hhd.
  - unfold strip, rstrip. rewrite rev_involutive. exact Hlast.
Qed.

Lemma split_strip_nonempty s : strip s <> [] -> split (strip s) <> [].
Proof.
  intros Hne Hsplit. apply split_nil in Hsplit.
  destruct (strip_spec s) as (_ & _ & _ & _ & _ & Hhd & _).
  destruct (strip s) as [|c r]; [congruence|].
  simpl in Hsplit. rewrite Hhd in Hsplit. discriminate.
Qed.
End StripFacts.

Section SortFacts.
Import Py.
Context {A : Type}.
Variable key : A -> Z.

Let ascending := StronglySorted (fun a b : A => key a <= key b).

Lemma insert_perm x l : Permutation (insert key x l) (x :: l).
Proof.
  induction l as [|y l IH]; simpl; [reflexivity|].
  destruct (key x <=? key y); [reflexivity|].
  rewrite IH. apply perm_swap.
Qed.

Lemma sort_perm l : Permutation (sort key l) l.
Proof.
  induction l as [|x l IH]; simpl; [reflexivity|].
  rewrite insert_perm. now constructor.
Qed.

Lemma insert_ascending x l : ascending l -> ascending (insert key x l).
Proof.
  unfold ascending. induction 1 as [|y l Hl IH Hy]; simpl.
  - repeat constructor.
  - destruct (key x <=? key y) eqn:Hxy.
    + apply Z.leb_le in Hxy. constructor; [now constructor|].
      constructor; [assumption|].
      eapply Forall_impl; [|exact Hy]. simpl. intros; lia.
    + apply Z.leb_gt in Hxy. constructor; [assumption|].
      rewrite (insert_perm x l). constructor; [lia|assumption].
Qed.

Lemma sort_ascending l : ascending (sort key l).
Proof.
  induction l as [|x l IH]; simpl; [constructor|].
  now apply insert_ascending.
Qed.

Lemma filter_insert n x l :
  filter (fun a => key a =? n) (insert key x l)
  = filter (fun a => key a =? n) (x :: l).
Proof.
  induction l as [|y l IH]; [reflexivity|].
  simpl insert. destruct (key x <=? key y) eqn:Hxy; [reflexivity|].
  apply Z.leb_gt in Hxy.
  change (filter (fun a => key a =? n) (y :: insert key x l))
    with (if key y =? n then y :: filter (fun a => key a =? n) (insert key x l)
          else filter (fun a => key a =? n) (insert key x l)).
  rewrite IH. simpl.
  destruct (key x =? n) eqn:Hx, (key y =? n) eqn:Hy; try reflexivity.
  apply Z.eqb_eq in Hx, Hy. lia.
Qed.

Lemma filter_sort n l :
  filter (fun a => key a =? n) (sort key l) = filter (fun a => key a =? n) l.
Proof.
  induction l as [|x l IH]; [reflexivity|].
  simpl sort. rewrite filter_insert. simpl. now rewrite IH.
Qed.

Lemma descending_snoc x l :
  descending key l -> Forall (fun y => key x <= key y) l ->
  descending key (l ++ [x]).
Proof.
  unfold descending. induction 1 as [|y r Hr IHr Hy]; simpl; intros Hx.
  - repeat constructor.
  - inversion Hx as [|? ? Hxy Hxr]; subst.
    constructor; [now apply IHr|].
    apply Forall_app. split; [assumption|]. now repeat constructor.
Qed.

Lemma ascending_rev l : ascending l -> descending key (rev l).
Proof.
  unfold ascending. induction 1 as [|x l Hl IH Hx]; simpl.
  - constructor.
  - apply descending_snoc; [assumption|].
    apply Forall_forall. intros y Hy. apply in_rev in Hy.
    rewrite Forall_forall in Hx. now apply Hx.
Qed.

Lemma filter_rev (f : A -> bool) l : filter f (rev l) = rev (filter f l).
Proof.
  induction l as [|x l IH]; simpl; [reflexivity|].
  rewrite filter_app, IH. simpl. destruct (f x); simpl;
    [reflexivity|now rewrite app_nil_r].
Qed.

(** What [sorted(l, key=key, reverse=True)] returns: the elements of [l],
    by descending key, ties in their order in [l]. *)
Lemma sorted_reverse_perm l : Permutation (sorted key true l) l.
Proof.
  unfold sorted. rewrite <- Permutation_rev, sort_perm.
  symmetry. apply Permutation_rev.
Qed.

Lemma sorted_reverse_descending l : descending key (sorted key true l).
Proof. unfold sorted. apply ascending_rev, sort_ascending. Qed.

Lemma sorted_reverse_stable l : stable key l (sorted key true l).
Proof.
  intros n. unfold sorted.
  now rewrite filter_rev, filter_sort, filter_rev, rev_involutive.
Qed.

Lemma sorted_length reverse l :
  List.length (sorted key reverse l) = List.length l.
Proof.
  apply Permutation_length. destruct reverse.
  - apply sorted_reverse_perm.
  - apply sort_perm.
Qed.

(** Descending order and stability leave one list only: any stable sort
    returns what [sorted] does. *)
Lemma descending_stable_unique l1 l2 :
  descending key l1 -> descending key l2 -> stable key l1 l2 -> l1 = l2.
Proof.
  unfold descending, stable. intros H1. revert l2.
  induction H1 as [|x l1 H1 IH Hx]; intros l2 H2 Hst.
  - destruct l2 as [|y l2]; [reflexivity|].
    specialize (Hst (key y)). simpl in Hst. rewrite Z.eqb_refl in Hst.
    discriminate.
  - destruct H2 as [|y l2 H2 Hy].
    + specialize (Hst (key x)). simpl in Hst. rewrite Z.eqb_refl in Hst.
      discriminate.
    + assert (Hk : key y = key x).
      { destruct (Z.eq_dec (key y) (key x)) as [|Hne]; [assumption|].
        exfalso.
        assert (Hxin : In x l2).
        { pose proof (Hst (key x)) as E. simpl in E.
          rewrite Z.eqb_refl in E.
          apply Z.eqb_neq in Hne. rewrite Hne in E.
          assert (Hin : In x (filter (fun a => key a =? key x) l2))
            by (rewrite E; now left).
          now apply filter_In in Hin. }
        assert (Hyin : In y l1).
        { pose proof (Hst (key y)) as E. simpl in E.
          rewrite Z.eqb_refl in E.
          assert (Hxy : (key x =? key y) = false) by (apply Z.eqb_neq; lia).
          rewrite Hxy in E.
          assert (Hin : In y (filter (fun a => key a =? key y) l1))
            by (rewrite <- E; now left).
          now apply filter_In in Hin. }
        rewrite Forall_forall in Hx, Hy.
        apply Hx in Hyin. apply Hy in Hxin. lia. }
      pose proof (Hst (key x)) as E. simpl in E.
      rewrite Z.eqb_refl in E. apply Z.eqb_eq in Hk as Hk'. rewrite Hk' in E.
      injection E as Eyx _. subst y.
      f_equal. apply IH; [assumption|]. intros n.
      specialize (Hst n). simpl in Hst.
      destruct (key x =? n); [now injection Hst|assumption].
Qed.
End SortFacts.

Section BuiltinFacts.
Import Py.

Lemma max_spec a b : max a b = Z.max a b.
Proof. unfold max. destruct (b >? a) eqn:H; lia. Qed.

Lemma slice_to_firstn {A : Type} (l : list A) stop :
  0 <= stop -> slice_to l stop = firstn (Z.to_nat stop) l.
Proof.
  intros H. unfold slice_to.
  destruct (stop <? 0) eqn:Hn; [lia|reflexivity].
Qed.

Lemma slice_to_max {A : Type} (l : list A) k :
  slice_to l (max 1 k) = firstn (Z.to_nat (Z.max 1 k)) l.
Proof. rewrite max_spec. apply slice_to_firstn. lia. Qed.
End BuiltinFacts.

(** [float] is exact on the integers below [2 ^ 53], so on every length. *)
Section FloatFacts.

Lemma digits2_pos_bounds m :
  2 ^ (Z.pos (digits2_pos m) - 1) <= Z.pos m < 2 ^ Z.pos (digits2_pos m).
Proof.
  induction m as [m IH|m IH|]; simpl digits2_pos.
  - rewrite Pos2Z.inj_succ.
    replace (Z.succ (Z.pos (digits2_pos m)) - 1) with (Z.succ (Z.pos (digits2_pos m) - 1)) by lia.
    rewrite !Z.pow_succ_r by lia. lia.
  - rewrite Pos2Z.inj_succ.
    replace (Z.succ (Z.pos (digits2_pos m)) - 1) with (Z.succ (Z.pos (digits2_pos m) - 1)) by lia.
    rewrite !Z.pow_succ_r by lia. lia.
  - simpl. lia.
Qed.

Lemma iter_xO_spec m k : Z.pos (Pos.iter xO m k) = Z.pos m * 2 ^ Z.pos k.
Proof.
  revert m. induction k as [|k IH] using Pos.peano_ind; intros m.
  - simpl. lia.
  - rewrite Pos.iter_succ, Pos2Z.inj_succ, Z.pow_succ_r by lia.
    rewrite Pos2Z.inj_xO, IH. lia.
Qed.

Lemma digits2_iter_xO m k :
  digits2_pos (Pos.iter xO m k) = (digits2_pos m + k)%positive.
Proof.
  induction k as [|k IH] using Pos.peano_ind.
  - simpl. lia.
  - rewrite Pos.iter_succ. simpl. rewrite IH. lia.
Qed.


Lemma fexp_small e : -1021 <= e -> fexp 53 1024 e = e - 53.
Proof. intros H. unfold fexp, emin. lia. Qed.

Lemma binary_round_aux_exact mz ez :
  digits2_pos mz = 53%positive -> -1074 <= ez <= 971 ->
  binary_round_aux 53 1024 false (Z.pos mz) ez loc_Exact
  = S754_finite false mz ez.
Proof.
  intros Hd He.
  assert (Hshift : forall l,
    shr_fexp 53 1024 (Z.pos mz) ez l = (shr_record_of_loc (Z.pos mz) l, ez)).
  { intros l. unfold shr_fexp. simpl Zdigits2. rewrite Hd.
    rewrite fexp_small by lia.
    replace (53 + ez - 53 - ez) with 0 by lia. reflexivity. }
  unfold binary_round_aux. rewrite Hshift. simpl.
  rewrite Hshift. simpl.
  destruct (ez <=? 971) eqn:Hle; [reflexivity|lia].
Qed.

Lemma float_pos m :
  Z.pos m < 2 ^ 53 ->
  Py.float (Z.pos m)
  = S754_finite false
      (Z.to_pos (Z.pos m * 2 ^ (53 - Z.pos (digits2_pos m))))
      (Z.pos (digits2_pos m) - 53).
Proof.
  intros Hm.
  pose proof (digits2_pos_bounds m) as [Hlo _].
  assert (Hd : Z.pos (digits2_pos m) <= 53).
  { destruct (Z.le_gt_cases (Z.pos (digits2_pos m)) 53) as [|Hgt]; [assumption|].
    assert (2 ^ 53 <= 2 ^ (Z.pos (digits2_pos m) - 1)) by (apply Z.pow_le_mono_r; lia).
    lia. }
  unfold Py.float, binary_normalize, binary_round.
  rewrite fexp_small by lia. unfold shl_align.
  destruct (Z.pos (digits2_pos m) + 0 - 53 - 0) as [|p|p] eqn:Hp; [|lia|].
  - assert (Hd53 : digits2_pos m = 53%positive) by lia.
    rewrite binary_round_aux_exact by (auto; lia).
    rewrite Hd53. simpl (2 ^ (53 - 53)). rewrite Z.mul_1_r. reflexivity.
  - assert (Hk : 53 - Z.pos (digits2_pos m) = Z.pos p) by lia.
    rewrite binary_round_aux_exact.
    + rewrite Hk, <- iter_xO_spec. simpl Z.to_pos. f_equal; lia.
    + rewrite digits2_iter_xO. lia.
    + lia.
Qed.

Lemma float_exact n : 0 <= n < 2 ^ 53 -> float_integer (Py.float n) = Some n.
Proof.
  intros [H0 Hn]. destruct n as [|m|m]; [reflexivity| |lia].
  rewrite float_pos by assumption.
  pose proof (digits2_pos_bounds m) as [Hlo _].
  assert (Hd : Z.pos (digits2_pos m) <= 53).
  { destruct (Z.le_gt_cases (Z.pos (digits2_pos m)) 53) as [|Hgt]; [assumption|].
    assert (2 ^ 53 <= 2 ^ (Z.pos (digits2_pos m) - 1)) by (apply Z.pow_le_mono_r; lia).
    lia. }
  set (k := 53 - Z.pos (digits2_pos m)).
  assert (Hk : 0 <= k) by (unfold k; lia).
  assert (Hpow : 0 < 2 ^ k) by (apply Z.pow_pos_nonneg; lia).
  unfold float_integer.
  rewrite Z2Pos.id by lia.
  replace (Z.pos (digits2_pos m) - 53) with (- k) by (unfold k; lia).
  rewrite Z.opp_involutive.
  destruct (0 <=? - k) eqn:Hs.
  - assert (k = 0) by lia. replace (- k) with 0 by lia.
    replace k with 0 by lia. simpl. f_equal. lia.
  - rewrite Z.mod_mul by lia. rewrite Z.eqb_refl, Z.div_mul by lia. reflexivity.
Qed.
End FloatFacts.

(** ** The predict flow *)

Import App.

Section PredictFacts.

Lemma map_token_scored (top : list Py.str) :
  map token
    (map (fun t => {| token := t; score := Py.float (Py.len t) |}) top)
  = top.
Proof. rewrite map_map. simpl. apply map_id. Qed.

Lemma simple_inference_unfold text top_k :
  _simple_inference text top_k
  = map (fun t => {| token := t; score := Py.float (Py.len t) |})
      (firstn (Z.to_nat (Z.max 1 top_k))
         (Py.sorted Py.len true (Py.split text))).
Proof. unfold _simple_inference. now rewrite slice_to_max. Qed.

(** The three ways [predict] ends. *)
Lemma predict_empty req bt :
  Py.strip (PredictRequest.text req) = [] ->
  predict req bt
  = (Raise (HTTPException 400 "text must not be empty"), bt).
Proof. intros H. unfold predict. now rewrite H. Qed.

Lemma predict_none req bt :
  Py.strip (PredictRequest.text req) <> [] ->
  PredictRequest.top_k req = None ->
  predict req bt = (Raise TypeError, bt).
Proof.
  intros H Hk. unfold predict. rewrite Hk.
  now destruct (Py.strip (PredictRequest.text req)).
Qed.

Lemma predict_some req bt k :
  Py.strip (PredictRequest.text req) <> [] ->
  PredictRequest.top_k req = Some k ->
  predict req bt
  = (Return
       {| PredictResponse.input := Py.strip (PredictRequest.text req);
          PredictResponse.top_k := k;
          PredictResponse.predictions :=
            _simple_inference (Py.strip (PredictRequest.text req)) k |},
     add_task bt
       {| logged_length := Py.len (Py.strip (PredictRequest.text req));
          logged_top_k := Some k |}).
Proof.
  intros H Hk. unfold predict. rewrite Hk.
  now destruct (Py.strip (PredictRequest.text req)).
Qed.

(** A call that returns had a non-empty trimmed text and an integer
    [top_k], and returned the response built from them. *)
Lemma predict_return req bt resp :
  fst (predict req bt) = Return resp ->
  exists k,
    Py.strip (PredictRequest.text req) <> []
    /\ PredictRequest.top_k req = Some k
    /\ resp =
       {| PredictResponse.input := Py.strip (PredictRequest.text req);
          PredictResponse.top_k := k;
          PredictResponse.predictions :=
            _simple_inference (Py.strip (PredictRequest.text req)) k |}.
Proof.
  intros H.
  destruct (Py.strip (PredictRequest.text req)) as [|c r] eqn:Hs.
  - rewrite predict_empty in H by assumption. discriminate.
  - assert (Hne : Py.strip (PredictRequest.text req) <> [])
      by (rewrite Hs; discriminate).
    destruct (PredictRequest.top_k req) as [k|] eqn:Hk.
    + rewrite (predict_some _ _ k Hne Hk) in H. simpl in H.
      injection H as <-. exists k. rewrite <- Hs. auto.
    + rewrite predict_none in H by assumption. discriminate.
Qed.

End PredictFacts.

(** ** Properties of the predict flow *)

(** C1: for every text and [top_k], the tokens are the whitespace-delimited
    runs of the text, and nothing else is; they are sorted by descending
    length with ties in their original order, which leaves one sequence
    only; and the predicted tokens are the first [max 1 top_k] of that
    sorted sequence, in that order. *)
Theorem simple_inference_sorted_prefix (text : Py.str) (top_k : Z) :
  let words := Py.split text in
  let scored := Py.sorted Py.len true words in
  whitespace_delimited text words
  /\ (forall toks, whitespace_delimited text toks -> toks = words)
  /\ Permutation scored words
  /\ descending Py.len scored
  /\ stable Py.len words scored
  /\ (forall l, descending Py.len l -> stable Py.len words l -> l = scored)
  /\ map token (_simple_inference text top_k)
     = firstn (Z.to_nat (Z.max 1 top_k)) scored.
Proof.
  intros words scored. repeat split.
  - apply split_whitespace_delimited.
  - apply whitespace_delimited_split.
  - apply sorted_reverse_perm.
  - apply sorted_reverse_descending.
  - apply sorted_reverse_stable.
  - intros l Hl Hst. symmetry.
    apply (descending_stable_unique Py.len);
      [apply sorted_reverse_descending|assumption|].
    intros n. rewrite Hst. symmetry. apply sorted_reverse_stable.
  - rewrite simple_inference_unfold. apply map_token_scored.
Qed.

(** C2: [predict] raises the 400 error exactly when the trimmed text is
    empty, which is exactly when the text is empty or all whitespace; no
    other text makes it raise an [HTTPException]. *)
Theorem predict_invalid_input_iff (req : PredictRequest.t)
    (bt : BackgroundTasks) :
  (fst (predict req bt) = Raise (HTTPException 400 "text must not be empty")
   <-> Py.strip (PredictRequest.text req) = [])
  /\ (Py.strip (PredictRequest.text req) = []
      <-> forallb Py.isspace (PredictRequest.text req) = true)
  /\ (forall status detail,
        fst (predict req bt) = Raise (HTTPException status detail) ->
        Py.strip (PredictRequest.text req) = []).
Proof.
  assert (H : forall status detail,
             fst (predict req bt) = Raise (HTTPException status detail) ->
             Py.strip (PredictRequest.text req) = []).
  { intros status detail H.
    destruct (Py.strip (PredictRequest.text req)) as [|c r] eqn:Hs;
      [reflexivity|exfalso].
    assert (Hne : Py.strip (PredictRequest.text req) <> [])
      by (rewrite Hs; discriminate).
    destruct (PredictRequest.top_k req) as [k|] eqn:Hk.
    - rewrite (predict_some _ _ k Hne Hk) in H. discriminate.
    - rewrite predict_none in H by assumption. discriminate. }
  repeat split.
  - apply H.
  - intros Hs. now rewrite predict_empty.
  - apply strip_nil.
  - apply strip_nil.
  - apply H.
Qed.

Lemma predict_invalid_input_iff_witness :
  fst (predict {| PredictRequest.text := Py.lit "   ";
                  PredictRequest.top_k := Some 3 |} [])
  = Raise (HTTPException 400 "text must not be empty").
Proof.
  apply (proj1 (predict_invalid_input_iff
                  {| PredictRequest.text := Py.lit "   ";
                     PredictRequest.top_k := Some 3 |} [])).
  reflexivity.
Defined.

(** C3: when the trimmed text is non-empty, a call that returns carries at
    least one prediction, and the call does return for every integer
    [top_k]. *)
Theorem predict_at_least_one (req : PredictRequest.t) (bt : BackgroundTasks) :
  Py.strip (PredictRequest.text req) <> [] ->
  (forall resp, fst (predict req bt) = Return resp ->
                1 <= Py.len (PredictResponse.predictions resp))
  /\ (forall k, PredictRequest.top_k req = Some k ->
                exists resp, fst (predict req bt) = Return resp).
Proof.
  intros Hne. split.
  - intros resp H. apply predict_return in H as (k & _ & _ & ->). simpl.
    rewrite simple_inference_unfold. unfold Py.len.
    rewrite length_map, length_firstn, sorted_length.
    apply split_strip_nonempty in Hne.
    destruct (Py.split (Py.strip (PredictRequest.text req)));
      [congruence|simpl; lia].
  - intros k Hk. rewrite (predict_some _ _ k Hne Hk). simpl. eauto.
Qed.

Lemma predict_at_least_one_witness :
  let req := {| PredictRequest.text := Py.lit "  to be or not  ";
                PredictRequest.top_k := Some (-5) |} in
  Py.strip (PredictRequest.text req) <> []
  /\ (forall resp, fst (predict req []) = Return resp ->
                   1 <= Py.len (PredictResponse.predictions resp))
  /\ (forall k, PredictRequest.top_k req = Some k ->
                exists resp, fst (predict req []) = Return resp).
Proof.
  intros req.
  assert (H : Py.strip (PredictRequest.text req) <> [])
    by (vm_compute; discriminate).
  split; [exact H|]. exact (predict_at_least_one req [] H).
Defined.

(** C4: a [top_k] of zero or less gives the predictions of [top_k = 1],
    from [_simple_inference] and so from [predict]. *)
Theorem top_k_nonpositive_as_one (text : Py.str) (k : Z) :
  k <= 0 ->
  _simple_inference text k = _simple_inference text 1
  /\ forall bt,
       result_map PredictResponse.predictions
         (fst (predict {| PredictRequest.text := text;
                          PredictRequest.top_k := Some k |} bt))
       = result_map PredictResponse.predictions
           (fst (predict {| PredictRequest.text := text;
                            PredictRequest.top_k := Some 1 |} bt)).
Proof.
  intros Hk.
  assert (H : forall t, _simple_inference t k = _simple_inference t 1).
  { intros t. rewrite !simple_inference_unfold.
    now replace (Z.max 1 k) with (Z.max 1 1) by lia. }
  split; [apply H|]. intros bt.
  destruct (Py.strip text) as [|c r] eqn:Hs.
  - now rewrite !predict_empty by assumption.
  - assert (Hne : Py.strip text <> []) by (rewrite Hs; discriminate).
    rewrite (predict_some _ bt k), (predict_some _ bt 1) by auto.
    simpl. now rewrite H.
Qed.

Lemma top_k_nonpositive_as_one_witness :
  -3 <= 0
  /\ _simple_inference (Py.lit "a bb ccc") (-3)
     = _simple_inference (Py.lit "a bb ccc") 1.
Proof.
  assert (H : -3 <= 0) by lia.
  split; [exact H|].
  exact (proj1 (top_k_nonpositive_as_one (Py.lit "a bb ccc") (-3) H)).
Defined.

(** C5 as stated fails: for the text "a" and [top_k = 0] the response carries
    [top_k = 0], while the value used for selection is [max 1 0 = 1]. *)
Lemma response_top_k_not_effective :
  let req := {| PredictRequest.text := Py.lit "a";
                PredictRequest.top_k := Some 0 |} in
  exists resp,
    fst (predict req []) = Return resp
    /\ PredictResponse.top_k resp = 0
    /\ PredictResponse.top_k resp <> Z.max 1 0
    /\ PredictResponse.predictions resp = _simple_inference (Py.lit "a") 1.
Proof.
  eexists. split; [reflexivity|]. simpl. repeat split. lia.
Qed.

(** C5, amended: a successful call echoes the trimmed text and the requested
    [top_k] unchanged; the echoed [top_k] is the value used for selection,
    [max 1 top_k], exactly when the requested [top_k] is at least 1. *)
Theorem response_echoes_requested_top_k (req : PredictRequest.t)
    (bt : BackgroundTasks) (resp : PredictResponse.t) (k : Z) :
  PredictRequest.top_k req = Some k ->
  fst (predict req bt) = Return resp ->
  PredictResponse.input resp = Py.strip (PredictRequest.text req)
  /\ PredictResponse.top_k resp = k
  /\ PredictResponse.predictions resp
     = _simple_inference (PredictResponse.input resp) (Z.max 1 k)
  /\ (PredictResponse.top_k resp = Z.max 1 k <-> 1 <= k).
Proof.
  intros Hk H. apply predict_return in H as (k' & _ & Hk' & ->).
  assert (k' = k) by congruence. subst k'. simpl. repeat split; try lia.
  rewrite !simple_inference_unfold.
  now replace (Z.max 1 (Z.max 1 k)) with (Z.max 1 k) by lia.
Qed.

Lemma response_echoes_requested_top_k_witness :
  let req := {| PredictRequest.text := Py.lit " a bb ";
                PredictRequest.top_k := Some (-2) |} in
  exists resp,
    fst (predict req []) = Return resp
    /\ PredictResponse.input resp = Py.lit "a bb"
    /\ PredictResponse.top_k resp = -2.
Proof.
  intros req. eexists. split; [reflexivity|].
  pose proof (response_echoes_requested_top_k req [] _ (-2)
                eq_refl eq_refl) as (Hi & Hk & _).
  split; [exact Hi|exact Hk].
Defined.

(** C6: each entry pairs a selected token with its length as a float, an
    exact value for every length below [2 ^ 53], and the entries follow the
    sorted order of the tokens. *)
Theorem scored_entries (text : Py.str) (top_k : Z) :
  let top := firstn (Z.to_nat (Z.max 1 top_k))
               (Py.sorted Py.len true (Py.split text)) in
  _simple_inference text top_k
  = map (fun t => {| token := t; score := Py.float (Py.len t) |}) top
  /\ map token (_simple_inference text top_k) = top
  /\ Forall (fun p => score p = Py.float (Py.len (token p)))
       (_simple_inference text top_k)
  /\ Forall (fun p => Py.len (token p) < 2 ^ 53 ->
                      float_integer (score p) = Some (Py.len (token p)))
       (_simple_inference text top_k).
Proof.
  intros top. rewrite simple_inference_unfold. fold top.
  split; [reflexivity|]. split; [apply map_token_scored|].
  split; apply Forall_forall; intros p Hp;
    apply in_map_iff in Hp as (t & <- & _); simpl.
  - reflexivity.
  - intros Hlt. apply float_exact. unfold Py.len in *. lia.
Qed.

(** C7: on "a bb ccc" with [top_k = 2] the predictions are "ccc" with score
    3.0, then "bb" with score 2.0. *)
Theorem predict_example :
  _simple_inference (Py.lit "a bb ccc") 2
  = [ {| token := Py.lit "ccc"; score := Py.float 3 |};
      {| token := Py.lit "bb"; score := Py.float 2 |} ]
  /\ Py.float 3 = S754_finite false 6755399441055744 (-51)
  /\ Py.float 2 = S754_finite false 4503599627370496 (-51)
  /\ float_integer (Py.float 3) = Some 3
  /\ float_integer (Py.float 2) = Some 2
  /\ forall bt,
       result_map PredictResponse.predictions
         (fst (predict {| PredictRequest.text := Py.lit "a bb ccc";
                          PredictRequest.top_k := Some 2 |} bt))
       = Return [ {| token := Py.lit "ccc"; score := Py.float 3 |};
                  {| token := Py.lit "bb"; score := Py.float 2 |} ].
Proof.
  repeat split; try (vm_compute; reflexivity).
Qed.

(** C8: two runs on the same text and the same [top_k] give the same
    prediction list, whatever background tasks each run starts with. *)
Theorem predictions_deterministic (req1 req2 : PredictRequest.t)
    (bt1 bt2 : BackgroundTasks) (resp1 resp2 : PredictResponse.t) :
  PredictRequest.text req1 = PredictRequest.text req2 ->
  PredictRequest.top_k req1 = PredictRequest.top_k req2 ->
  fst (predict req1 bt1) = Return resp1 ->
  fst (predict req2 bt2) = Return resp2 ->
  PredictResponse.predictions resp1 = PredictResponse.predictions resp2
  /\ map token (PredictResponse.predictions resp1)
     = map token (PredictResponse.predictions resp2)
  /\ map score (PredictResponse.predictions resp1)
     = map score (PredictResponse.predictions resp2).
Proof.
  intros Ht Hk H1 H2.
  apply predict_return in H1 as (k1 & _ & Hk1 & ->).
  apply predict_return in H2 as (k2 & _ & Hk2 & ->).
  assert (k1 = k2) by congruence. subst k2. simpl. rewrite Ht. auto.
Qed.

Lemma predictions_deterministic_witness :
  let req := {| PredictRequest.text := Py.lit "one three five";
                PredictRequest.top_k := Some 2 |} in
  let queued := [ {| logged_length := 4; logged_top_k := Some 1 |} ] in
  exists resp1 resp2,
    fst (predict req []) = Return resp1
    /\ fst (predict req queued) = Return resp2
    /\ PredictResponse.predictions resp1 = PredictResponse.predictions resp2.
Proof.
  intros req queued. eexists. eexists.
  split; [reflexivity|]. split; [reflexivity|].
  exact (proj1 (predictions_deterministic req req [] queued _ _
                  eq_refl eq_refl eq_refl eq_refl)).
Defined.

(** C9: the [input] field of a successful response is the request text
    without its leading and trailing whitespace: the text is that field
    between two runs of whitespace, and the field neither starts nor ends
    with whitespace. *)
Theorem response_input_trimmed (req : PredictRequest.t) (bt : BackgroundTasks)
    (resp : PredictResponse.t) :
  fst (predict req bt) = Return resp ->
  PredictResponse.input resp = Py.strip (PredictRequest.text req)
  /\ exists ws1 ws2,
       PredictRequest.text req = ws1 ++ PredictResponse.input resp ++ ws2
       /\ forallb Py.isspace ws1 = true
       /\ forallb Py.isspace ws2 = true
       /\ match PredictResponse.input resp with
          | [] => False
          | c :: _ => Py.isspace c = false
          end
       /\ match rev (PredictResponse.input resp) with
          | [] => False
          | c :: _ => Py.isspace c = false
          end.
Proof.
  intros H. apply predict_return in H as (k & Hne & _ & ->). simpl.
  split; [reflexivity|].
  destruct (strip_spec (PredictRequest.text req))
    as (ws1 & ws2 & E & H1 & H2 & Hhd & Hlast).
  exists ws1, ws2. repeat split; try assumption.
  - destruct (Py.strip (PredictRequest.text req)); [congruence|assumption].
  - destruct (rev (Py.strip (PredictRequest.text req))) eqn:Hr;
      [|assumption].
    apply (f_equal (@rev Py.char)) in Hr. rewrite rev_involutive in Hr.
    simpl in Hr. congruence.
Qed.

Lemma response_input_trimmed_witness :
  let req := {| PredictRequest.text := Py.lit "  a bb ";
                PredictRequest.top_k := Some 1 |} in
  exists resp,
    fst (predict req []) = Return resp
    /\ PredictResponse.input resp = Py.lit "a bb"
    /\ PredictResponse.input resp <> PredictRequest.text req.
Proof.
  intros req. eexists. split; [reflexivity|].
  pose proof (response_input_trimmed req [] _ eq_refl) as (Hi & _).
  split; [exact Hi|]. rewrite Hi. vm_compute. discriminate.
Defined.

(** C10: the number of predictions is the smaller of the number of tokens
    and [max 1 top_k]; when [max 1 top_k] reaches the token count, the
    predicted tokens are all the tokens, sorted, and nothing else. *)
Theorem predictions_count (text : Py.str) (top_k : Z) :
  Py.len (_simple_inference text top_k)
  = Z.min (Py.len (Py.split text)) (Z.max 1 top_k)
  /\ (Py.len (Py.split text) <= Z.max 1 top_k ->
      map token (_simple_inference text top_k)
      = Py.sorted Py.len true (Py.split text)).
Proof.
  rewrite simple_inference_unfold. split.
  - unfold Py.len. rewrite length_map, length_firstn, sorted_length.
    rewrite Nat2Z.inj_min, Z2Nat.id by lia. apply Z.min_comm.
  - intros Hle. rewrite map_token_scored. apply firstn_all2.
    rewrite sorted_length. apply Nat2Z.inj_le.
    rewrite Z2Nat.id by lia. exact Hle.
Qed.

Lemma predictions_count_witness :
  Py.len (Py.split (Py.lit "a bb ccc")) <= Z.max 1 5
  /\ map token (_simple_inference (Py.lit "a bb ccc") 5)
     = [Py.lit "ccc"; Py.lit "bb"; Py.lit "a"].
Proof.
  assert (H : Py.len (Py.split (Py.lit "a bb ccc")) <= Z.max 1 5)
    by (vm_compute; discriminate).
  split; [exact H|].
  exact (proj2 (predictions_count (Py.lit "a bb ccc") 5) H).
Defined.

(** ** Further facts about trimming and tokens *)

Section TrimFacts.
Import Py.

Lemma whitespace_delimited_trailing s toks ws :
  whitespace_delimited s toks ->
  forallb isspace ws = true ->
  whitespace_delimited (s ++ ws) toks.
Proof.
  intros H Hws.
  induction H as [ws0 Hws0|ws0 tok rest toks Hws0 Hne Htok Hrest _ IH].
  - constructor. rewrite forallb_app. now rewrite Hws0, Hws.
  - rewrite <- !app_assoc. constructor; auto.
    destruct rest as [|c r]; simpl; [|exact Hrest].
    destruct ws as [|c r]; [exact I|].
    simpl in Hws. now apply andb_true_iff in Hws as [Hc _].
Qed.

Lemma split_trailing s ws :
  forallb isspace ws = true -> split (s ++ ws) = split s.
Proof.
  intros Hws. symmetry. apply whitespace_delimited_split.
  apply whitespace_delimited_trailing; [|assumption].
  apply split_whitespace_delimited.
Qed.

Lemma split_strip s : split (strip s) = split s.
Proof.
  destruct (strip_spec s) as (ws1 & ws2 & E & H1 & H2 & _).
  rewrite E at 2. now rewrite split_blank, split_trailing.
Qed.

Lemma lstrip_fixed s :
  match s with [] => True | c :: _ => isspace c = false end -> lstrip s = s.
Proof. destruct s as [|c r]; simpl; [reflexivity|]. now intros ->. Qed.

Lemma strip_idempotent s : strip (strip s) = strip s.
Proof.
  destruct (strip_spec s) as (_ & _ & _ & _ & _ & Hhd & Hlast).
  unfold strip at 1. unfold rstrip.
  rewrite (lstrip_fixed (strip s)) by assumption.
  rewrite lstrip_fixed by assumption. apply rev_involutive.
Qed.

Lemma filter_nonspace_blank ws :
  forallb isspace ws = true -> filter nonspace ws = [].
Proof.
  induction ws as [|c ws IH]; simpl; [reflexivity|]. intros H.
  apply andb_true_iff in H as [Hc Hws]. unfold nonspace at 1.
  rewrite Hc. simpl. now apply IH.
Qed.

Lemma filter_nonspace_token tok :
  forallb nonspace tok = true -> filter nonspace tok = tok.
Proof.
  induction tok as [|c tok IH]; simpl; [reflexivity|]. intros H.
  apply andb_true_iff in H as [Hc Htok]. rewrite Hc. f_equal. now apply IH.
Qed.

Lemma whitespace_delimited_concat s toks :
  whitespace_delimited s toks -> List.concat toks = filter nonspace s.
Proof.
  induction 1 as [ws Hws|ws tok rest toks Hws Hne Htok Hrest _ IH]; simpl.
  - symmetry. now apply filter_nonspace_blank.
  - rewrite !filter_app, filter_nonspace_blank, filter_nonspace_token
      by assumption.
    simpl. now rewrite IH.
Qed.

Lemma length_filter_le {A : Type} (f : A -> bool) (l : list A) :
  (List.length (filter f l) <= List.length l)%nat.
Proof.
  induction l as [|x l IH]; simpl; [lia|]. destruct (f x); simpl; lia.
Qed.

Lemma length_in_concat {A : Type} (t : list A) (ts : list (list A)) :
  In t ts -> (List.length t <= List.length (List.concat ts))%nat.
Proof.
  induction ts as [|u ts IH]; simpl; [contradiction|].
  rewrite length_app. intros [->|H]; [lia|]. apply IH in H. lia.
Qed.

(** A token is no longer than the text it comes from. *)
Lemma token_length_le s t : In t (split s) -> len t <= len s.
Proof.
  intros H. unfold len. apply Nat2Z.inj_le.
  apply length_in_concat in H.
  rewrite (whitespace_delimited_concat s) in H
    by apply split_whitespace_delimited.
  pose proof (length_filter_le nonspace s). lia.
Qed.
End TrimFacts.

(** ** Further facts about ranking *)

Section RankFacts.
Context {A : Type}.
Variable key : A -> Z.

(** The first element that a filter keeps, and what comes before it. *)
Lemma filter_first (f : A -> bool) l x r :
  filter f l = x :: r ->
  exists pre post,
    l = pre ++ x :: post /\ Forall (fun a => f a = false) pre /\ f x = true.
Proof.
  induction l as [|a l IH]; simpl; [discriminate|].
  destruct (f a) eqn:Ha.
  - intros E. injection E as -> _. exists [], l. auto.
  - intros E. destruct (IH E) as (pre & post & -> & Hpre & Hx).
    exists (a :: pre), post. auto.
Qed.

Lemma descending_firstn n l : descending key l -> descending key (firstn n l).
Proof.
  unfold descending. intros H. revert n.
  induction H as [|x l Hl IH Hx]; intros [|n]; simpl; try constructor.
  - apply IH.
  - apply Forall_forall. intros y Hy. rewrite Forall_forall in Hx.
    apply Hx. rewrite <- (firstn_skipn n l). apply in_or_app. now left.
Qed.

Lemma descending_map {B : Type} (f : A -> B) (key' : B -> Z) l :
  (forall a, In a l -> key' (f a) = key a) ->
  descending key l -> descending key' (map f l).
Proof.
  unfold descending. intros Hk H.
  induction H as [|x l Hl IH Hx]; simpl; constructor.
  - apply IH. intros a Ha. apply Hk. now right.
  - apply Forall_forall. intros b Hb.
    apply in_map_iff in Hb as (a & <- & Ha).
    rewrite (Hk x), (Hk a) by (simpl; auto).
    rewrite Forall_forall in Hx. now apply Hx.
Qed.

Lemma in_firstn n (l : list A) x : In x (firstn n l) -> In x l.
Proof.
  intros H. rewrite <- (firstn_skipn n l). apply in_or_app. now left.
Qed.

Lemma firstn_prefix n m (l : list A) :
  (n <= m)%nat -> firstn m l = firstn n l ++ skipn n (firstn m l).
Proof.
  intros H. rewrite <- (firstn_skipn n (firstn m l)) at 1.
  rewrite firstn_firstn. now rewrite Nat.min_l.
Qed.

Lemma length_concat_perm (l l' : list (list A)) :
  Permutation l l' ->
  List.length (List.concat l) = List.length (List.concat l').
Proof.
  induction 1; simpl; rewrite ?length_app; lia.
Qed.

(** The head of a reverse sort is the first element of largest key. *)
Lemma sorted_reverse_head l w rest :
  Py.sorted key true l = w :: rest ->
  exists pre post,
    l = pre ++ w :: post
    /\ Forall (fun a => key a < key w) pre
    /\ Forall (fun a => key a <= key w) post.
Proof.
  intros E.
  pose proof (sorted_reverse_descending key l) as Hd.
  pose proof (sorted_reverse_perm key l) as Hp.
  pose proof (sorted_reverse_stable key l (key w)) as Hs.
  rewrite E in Hd, Hp, Hs. simpl in Hs. rewrite Z.eqb_refl in Hs.
  symmetry in Hs. apply filter_first in Hs as (pre & post & El & Hpre & _).
  assert (Hall : forall a, In a l -> key a <= key w).
  { intros a Ha. apply (Permutation_in _ (Permutation_sym Hp)) in Ha.
    destruct Ha as [->|Ha]; [lia|].
    apply StronglySorted_inv in Hd as [_ Hd].
    rewrite Forall_forall in Hd. now apply Hd. }
  exists pre, post. split; [assumption|]. split.
  - apply Forall_forall. intros a Ha.
    rewrite Forall_forall in Hpre. specialize (Hpre a Ha).
    apply Z.eqb_neq in Hpre.
    assert (key a <= key w)
      by (apply Hall; rewrite El; apply in_or_app; now left).
    lia.
  - apply Forall_forall. intros a Ha. apply Hall. rewrite El.
    apply in_or_app. right. now right.
Qed.
End RankFacts.

(** ** Further properties of the predict flow *)

(** X1: the first prediction is the leftmost longest token of the text:
    every token before it is strictly shorter and no token after it is
    longer. *)
Theorem first_prediction_leftmost_longest (text : Py.str) (top_k : Z) :
  Py.split text <> [] ->
  exists pre w post,
    Py.split text = pre ++ w :: post
    /\ Forall (fun t => Py.len t < Py.len w) pre
    /\ Forall (fun t => Py.len t <= Py.len w) post
    /\ hd_error (_simple_inference text top_k)
       = Some {| token := w; score := Py.float (Py.len w) |}.
Proof.
  intros Hne. rewrite simple_inference_unfold.
  destruct (Py.sorted Py.len true (Py.split text)) as [|w rest] eqn:E.
  - apply (f_equal (@List.length Py.str)) in E.
    rewrite sorted_length in E.
    destruct (Py.split text); [congruence|discriminate].
  - destruct (sorted_reverse_head _ _ _ _ E) as (pre & post & El & H1 & H2).
    exists pre, w, post. repeat split; try assumption.
    destruct (Z.to_nat (Z.max 1 top_k)) eqn:Hn; [lia|reflexivity].
Qed.

Lemma first_prediction_leftmost_longest_witness :
  exists pre post,
    Py.split (Py.lit "to be seen or heard") = pre ++ Py.lit "heard" :: post
    /\ hd_error (map token (_simple_inference (Py.lit "to be seen or heard") 3))
       = Some (Py.lit "heard").
Proof.
  assert (Hne : Py.split (Py.lit "to be seen or heard") <> [])
    by (vm_compute; discriminate).
  destruct (first_prediction_leftmost_longest _ 3 Hne)
    as (pre & w & post & E & _ & _ & Hhd).
  assert (Hw : w = Py.lit "heard").
  { vm_compute in Hhd. now injection Hhd as <-. }
  subst w. exists pre, post. split; [exact E|reflexivity].
Defined.

(** X2: raising [top_k] only appends predictions: the list for a smaller
    [top_k] is a prefix of the list for a larger one, and from the number of
    tokens on the list no longer changes. *)
Theorem predictions_prefix_monotone (text : Py.str) (k k' : Z) :
  k <= k' ->
  (exists more,
     _simple_inference text k' = _simple_inference text k ++ more)
  /\ (Py.len (Py.split text) <= k ->
      _simple_inference text k' = _simple_inference text k).
Proof.
  intros Hk. rewrite !simple_inference_unfold. split.
  - rewrite (firstn_prefix (Z.to_nat (Z.max 1 k)) (Z.to_nat (Z.max 1 k')))
      by lia.
    rewrite map_app. eauto.
  - intros Hlen.
    assert (H : forall n, Py.len (Py.split text) <= Z.max 1 n ->
              firstn (Z.to_nat (Z.max 1 n))
                (Py.sorted Py.len true (Py.split text))
              = Py.sorted Py.len true (Py.split text)).
    { intros n Hn. apply firstn_all2. rewrite sorted_length.
      apply Nat2Z.inj_le. rewrite Z2Nat.id by lia. exact Hn. }
    rewrite !H by lia. reflexivity.
Qed.

Lemma predictions_prefix_monotone_witness :
  exists more,
    _simple_inference (Py.lit "a bb ccc") 3
    = _simple_inference (Py.lit "a bb ccc") 1 ++ more.
Proof.
  assert (H : 1 <= 3) by lia.
  exact (proj1 (predictions_prefix_monotone (Py.lit "a bb ccc") 1 3 H)).
Defined.

(** X3: trimming does not change the predictions: they are what
    [_simple_inference] gives on the text as submitted, surrounding
    whitespace included. *)
Theorem predictions_ignore_trimming (req : PredictRequest.t)
    (bt : BackgroundTasks) (resp : PredictResponse.t) :
  fst (predict req bt) = Return resp ->
  PredictResponse.predictions resp
  = _simple_inference (PredictRequest.text req) (PredictResponse.top_k resp).
Proof.
  intros H. apply predict_return in H as (k & _ & _ & ->). simpl.
  unfold _simple_inference. now rewrite split_strip.
Qed.

Lemma predictions_ignore_trimming_witness :
  exists resp,
    fst (predict {| PredictRequest.text := Py.lit "  a bb  ";
                    PredictRequest.top_k := Some 2 |} []) = Return resp
    /\ PredictResponse.predictions resp
       = _simple_inference (Py.lit "  a bb  ") 2.
Proof.
  eexists. split; [reflexivity|].
  exact (predictions_ignore_trimming
           {| PredictRequest.text := Py.lit "  a bb  ";
              PredictRequest.top_k := Some 2 |} [] _ eq_refl).
Defined.

(** X4: a response can be fed back: submitting its [input] and [top_k]
    again returns the same response. *)
Theorem predict_resubmit (req : PredictRequest.t) (bt bt' : BackgroundTasks)
    (resp : PredictResponse.t) :
  fst (predict req bt) = Return resp ->
  fst (predict {| PredictRequest.text := PredictResponse.input resp;
                  PredictRequest.top_k := Some (PredictResponse.top_k resp) |}
         bt')
  = Return resp.
Proof.
  intros H. apply predict_return in H as (k & Hne & _ & ->). simpl.
  rewrite (predict_some _ bt' k); simpl; rewrite ?strip_idempotent; auto.
Qed.

Lemma predict_resubmit_witness :
  exists resp,
    fst (predict {| PredictRequest.text := Py.lit " a bb ";
                    PredictRequest.top_k := Some 0 |} []) = Return resp
    /\ fst (predict
              {| PredictRequest.text := PredictResponse.input resp;
                 PredictRequest.top_k := Some (PredictResponse.top_k resp) |}
              [])
       = Return resp.
Proof.
  eexists. split; [reflexivity|].
  exact (predict_resubmit
           {| PredictRequest.text := Py.lit " a bb ";
              PredictRequest.top_k := Some 0 |} [] [] _ eq_refl).
Defined.

Section SelectionFacts.

(** The selected tokens, and the tokens left out. *)
Lemma simple_inference_selection text top_k :
  exists top rest,
    _simple_inference text top_k
    = map (fun t => {| token := t; score := Py.float (Py.len t) |}) top
    /\ Permutation (top ++ rest) (Py.split text)
    /\ descending Py.len top
    /\ (Py.len (Py.split text) <= Z.max 1 top_k -> rest = []).
Proof.
  set (scored := Py.sorted Py.len true (Py.split text)).
  exists (firstn (Z.to_nat (Z.max 1 top_k)) scored),
         (skipn (Z.to_nat (Z.max 1 top_k)) scored).
  split; [apply simple_inference_unfold|]. split; [|split].
  - rewrite firstn_skipn. apply sorted_reverse_perm.
  - apply descending_firstn, sorted_reverse_descending.
  - intros Hle. apply skipn_all2. unfold scored. rewrite sorted_length.
    apply Nat2Z.inj_le. rewrite Z2Nat.id by lia. exact Hle.
Qed.

Lemma split_tokens_wellformed text :
  Forall (fun t => t <> [] /\ forallb Py.nonspace t = true) (Py.split text).
Proof.
  apply (whitespace_delimited_tokens text), split_whitespace_delimited.
Qed.

End SelectionFacts.

(** X5: when the text is shorter than [2 ^ 53] characters, every score is a
    whole number, the length of its token, between 1 and the length of the
    text, and the scores never increase down the list. *)
Theorem prediction_scores (text : Py.str) (top_k : Z) :
  Py.len text < 2 ^ 53 ->
  Forall (fun p => score_integer p = Py.len (token p)
                   /\ 1 <= score_integer p <= Py.len text)
    (_simple_inference text top_k)
  /\ descending score_integer (_simple_inference text top_k).
Proof.
  intros Hlen.
  destruct (simple_inference_selection text top_k)
    as (top & rest & -> & Hp & Hd & _).
  assert (Hin : forall t, In t top -> In t (Py.split text)).
  { intros t Ht. apply (Permutation_in _ Hp). apply in_or_app. now left. }
  assert (Hscore : forall t, In t top ->
            score_integer {| token := t; score := Py.float (Py.len t) |}
            = Py.len t /\ 1 <= Py.len t <= Py.len text).
  { intros t Ht. apply Hin in Ht.
    pose proof (token_length_le _ _ Ht) as Hle.
    pose proof (split_tokens_wellformed text) as Hwf.
    rewrite Forall_forall in Hwf. destruct (Hwf t Ht) as [Hne _].
    assert (1 <= Py.len t).
    { destruct t; [congruence|]. unfold Py.len. simpl. lia. }
    unfold score_integer. simpl.
    rewrite float_exact by lia. auto. }
  split.
  - apply Forall_forall. intros p Hp'.
    apply in_map_iff in Hp' as (t & <- & Ht).
    destruct (Hscore t Ht) as [E Hb]. rewrite E. simpl. auto.
  - apply (descending_map Py.len); [|assumption].
    intros t Ht. now apply Hscore.
Qed.

Lemma prediction_scores_witness :
  Forall (fun p => score_integer p = Py.len (token p)
                   /\ 1 <= score_integer p <= 8)
    (_simple_inference (Py.lit "a bb ccc") 2).
Proof.
  assert (H : Py.len (Py.lit "a bb ccc") < 2 ^ 53) by (vm_compute; reflexivity).
  exact (proj1 (prediction_scores (Py.lit "a bb ccc") 2 H)).
Defined.

(** X6: every predicted token is one of the text's tokens, is not empty
    and contains no whitespace. *)
Theorem predicted_tokens_from_text (text : Py.str) (top_k : Z) :
  Forall (fun p => In (token p) (Py.split text)
                   /\ token p <> []
                   /\ forallb Py.nonspace (token p) = true)
    (_simple_inference text top_k).
Proof.
  destruct (simple_inference_selection text top_k)
    as (top & rest & -> & Hp & _ & _).
  apply Forall_forall. intros p Hp'.
  apply in_map_iff in Hp' as (t & <- & Ht). simpl.
  assert (Hin : In t (Py.split text)).
  { apply (Permutation_in _ Hp). apply in_or_app. now left. }
  pose proof (split_tokens_wellformed text) as Hwf.
  rewrite Forall_forall in Hwf. destruct (Hwf t Hin). auto.
Qed.

(** X7: called directly, [_simple_inference] returns no prediction exactly
    when the text is empty or all whitespace, whatever [top_k] is. *)
Theorem simple_inference_empty_iff (text : Py.str) (top_k : Z) :
  _simple_inference text top_k = [] <-> forallb Py.isspace text = true.
Proof.
  rewrite <- split_nil, simple_inference_unfold. split.
  - intros H. apply map_eq_nil in H.
    apply (f_equal (@List.length Py.str)) in H.
    rewrite length_firstn, sorted_length in H. simpl in H.
    destruct (Py.split text); [reflexivity|simpl in H; lia].
  - intros ->. now destruct (Z.to_nat (Z.max 1 top_k)).
Qed.

(** X8: the three outcomes of [predict]: it returns exactly when the text
    is not blank and [top_k] is an integer, and it raises [TypeError] exactly
    when the text is not blank and [top_k] is [None]; the blank-text check
    comes first. *)
Theorem predict_outcomes (req : PredictRequest.t) (bt : BackgroundTasks) :
  ((exists resp, fst (predict req bt) = Return resp)
   <-> forallb Py.isspace (PredictRequest.text req) = false
       /\ PredictRequest.top_k req <> None)
  /\ (fst (predict req bt) = Raise TypeError
      <-> forallb Py.isspace (PredictRequest.text req) = false
          /\ PredictRequest.top_k req = None).
Proof.
  assert (Hblank : forallb Py.isspace (PredictRequest.text req) = false
                   <-> Py.strip (PredictRequest.text req) <> []).
  { rewrite strip_nil.
    destruct (forallb Py.isspace (PredictRequest.text req));
      intuition congruence. }
  rewrite !Hblank.
  destruct (Py.strip (PredictRequest.text req)) as [|c r] eqn:Hs.
  - rewrite predict_empty by assumption. simpl.
    split; split; try (intros [H _]; congruence);
      [intros [resp H]|intros H]; discriminate.
  - assert (Hne : Py.strip (PredictRequest.text req) <> [])
      by (rewrite Hs; discriminate).
    destruct (PredictRequest.top_k req) as [k|] eqn:Hk.
    + rewrite (predict_some _ _ k Hne Hk). simpl. split; split.
      * intros _. split; discriminate.
      * intros _. eauto.
      * discriminate.
      * intros [_ H]. discriminate.
    + rewrite predict_none by assumption. simpl. split; split.
      * intros [resp H]. discriminate.
      * intros [_ H]. congruence.
      * intros _. split; [discriminate|reflexivity].
      * reflexivity.
Qed.

(** X9: a call that raises queues nothing; a call that returns queues one
    log task behind the tasks already there, recording the length of the
    trimmed text and the [top_k] as requested. *)
Theorem predict_background_tasks (req : PredictRequest.t)
    (bt : BackgroundTasks) :
  (forall e, fst (predict req bt) = Raise e -> snd (predict req bt) = bt)
  /\ (forall resp,
        fst (predict req bt) = Return resp ->
        snd (predict req bt)
        = bt ++ [ {| logged_length := Py.len (PredictResponse.input resp);
                     logged_top_k := PredictRequest.top_k req |} ]).
Proof.
  destruct (Py.strip (PredictRequest.text req)) as [|c r] eqn:Hs.
  - rewrite predict_empty by assumption. simpl.
    split; [reflexivity|discriminate].
  - assert (Hne : Py.strip (PredictRequest.text req) <> [])
      by (rewrite Hs; discriminate).
    destruct (PredictRequest.top_k req) as [k|] eqn:Hk.
    + rewrite (predict_some _ _ k Hne Hk). simpl.
      split; [discriminate|]. intros resp E. injection E as <-. simpl.
      now rewrite Hs.
    + rewrite predict_none by assumption. simpl.
      split; [reflexivity|discriminate].
Qed.

(** X10: the predicted tokens hold no more characters than the text has
    outside whitespace, and exactly as many once [max 1 top_k] reaches the
    number of tokens. *)
Theorem predicted_characters (text : Py.str) (top_k : Z) :
  Py.len (List.concat (map token (_simple_inference text top_k)))
  <= Py.len (nonspace_chars text)
  /\ (Py.len (Py.split text) <= Z.max 1 top_k ->
      Py.len (List.concat (map token (_simple_inference text top_k)))
      = Py.len (nonspace_chars text)).
Proof.
  destruct (simple_inference_selection text top_k)
    as (top & rest & -> & Hp & _ & Hall).
  rewrite map_token_scored.
  apply length_concat_perm in Hp.
  rewrite (whitespace_delimited_concat text (Py.split text)
             (split_whitespace_delimited text)) in Hp.
  rewrite concat_app, length_app in Hp.
  unfold Py.len, nonspace_chars. split.
  - apply Nat2Z.inj_le. lia.
  - intros Hle. rewrite (Hall Hle) in Hp. simpl in Hp. f_equal. lia.
Qed.

(** ** The CORS origin list *)

Section SeparatorFacts.
Import Py.
Variable sep : char.

Let sep_free (p : str) : bool := forallb (fun c => negb (c =? sep)%N) p.

Lemma split_char_from_nonempty part s : split_char_from sep part s <> [].
Proof.
  revert part. induction s as [|c s IH]; simpl; intros part; [discriminate|].
  destruct (c =? sep)%N; [discriminate|apply IH].
Qed.

Lemma join_cons p ps :
  ps <> [] -> join [sep] (p :: ps) = p ++ sep :: join [sep] ps.
Proof. destruct ps; [congruence|reflexivity]. Qed.

Lemma join_split_char_from part s :
  join [sep] (split_char_from sep part s) = part ++ s.
Proof.
  revert part. induction s as [|c s IH]; simpl; intros part.
  - now rewrite app_nil_r.
  - destruct (c =? sep)%N eqn:Hc.
    + apply N.eqb_eq in Hc. subst c.
      rewrite join_cons by apply split_char_from_nonempty.
      now rewrite IH.
    + rewrite IH. now rewrite <- app_assoc.
Qed.

Lemma split_char_from_run p part s :
  sep_free p = true ->
  split_char_from sep part (p ++ s) = split_char_from sep (part ++ p) s.
Proof.
  unfold sep_free. revert part.
  induction p as [|c p IH]; simpl; intros part H.
  - now rewrite app_nil_r.
  - apply andb_true_iff in H as [Hc Hp]. apply negb_true_iff in Hc.
    rewrite Hc, IH by assumption. now rewrite <- app_assoc.
Qed.

Lemma split_char_join parts :
  parts <> [] -> Forall (fun p => sep_free p = true) parts ->
  split_char sep (join [sep] parts) = parts.
Proof.
  unfold split_char. induction parts as [|p ps IH]; [congruence|].
  intros _ H. inversion H as [|? ? Hp Hps]; subst.
  destruct ps as [|q ps].
  - simpl. rewrite <- (app_nil_r p) at 1.
    now rewrite split_char_from_run.
  - rewrite join_cons by discriminate.
    rewrite split_char_from_run by assumption. simpl.
    rewrite N.eqb_refl. f_equal. apply IH; [discriminate|assumption].
Qed.

Lemma split_char_from_free part s :
  sep_free part = true ->
  Forall (fun p => sep_free p = true) (split_char_from sep part s).
Proof.
  unfold sep_free. revert part.
  induction s as [|c s IH]; simpl; intros part Hpart.
  - now constructor.
  - destruct (c =? sep)%N eqn:Hc.
    + constructor; [assumption|]. now apply IH.
    + apply IH. rewrite forallb_app. apply andb_true_iff.
      split; [assumption|]. simpl. now rewrite Hc.
Qed.

Lemma length_split_char_from part s :
  List.length (split_char_from sep part s)
  = S (count_occ N.eq_dec s sep).
Proof.
  revert part. induction s as [|c s IH]; simpl; intros part; [reflexivity|].
  destruct (c =? sep)%N eqn:Hc.
  - apply N.eqb_eq in Hc. subst c.
    destruct (N.eq_dec sep sep); [|congruence]. simpl. now rewrite IH.
  - apply N.eqb_neq in Hc.
    destruct (N.eq_dec c sep); [congruence|]. apply IH.
Qed.
End SeparatorFacts.

(** X11: the origin list is never empty, joining it with commas gives back
    the configured value, no origin contains a comma, and there is one more
    origin than there are commas in the value. *)
Theorem allow_origins_round_trip (env : environ) :
  let value := getenv env "CORS_ALLOW_ORIGINS" (Py.lit "*") in
  allow_origins env <> []
  /\ Py.join (Py.lit ",") (allow_origins env) = value
  /\ Forall (fun o => comma_free o = true) (allow_origins env)
  /\ List.length (allow_origins env) = S (count_occ N.eq_dec value 44%N).
Proof.
  intros value. unfold allow_origins, Py.split_char. fold value.
  repeat split.
  - apply split_char_from_nonempty.
  - apply (join_split_char_from 44%N []).
  - apply (split_char_from_free 44%N []). reflexivity.
  - apply length_split_char_from.
Qed.

(** X12: when the variable holds comma-free origins joined by commas, the
    origin list is exactly those origins, empty ones included and none
    trimmed. *)
Theorem allow_origins_of_joined (env : environ) (origins : list Py.str) :
  env "CORS_ALLOW_ORIGINS"%string = Some (Py.join (Py.lit ",") origins) ->
  origins <> [] ->
  Forall (fun o => comma_free o = true) origins ->
  allow_origins env = origins.
Proof.
  intros Henv Hne Hfree. unfold allow_origins, getenv. rewrite Henv.
  now apply (split_char_join 44%N).
Qed.

Lemma allow_origins_of_joined_witness :
  allow_origins
    (fun key => if String.eqb key "CORS_ALLOW_ORIGINS"
                then Some (Py.lit "http://a.test, http://b.test,")
                else None)
  = [Py.lit "http://a.test"; Py.lit " http://b.test"; Py.lit ""].
Proof.
  apply allow_origins_of_joined.
  - reflexivity.
  - discriminate.
  - repeat constructor.
Defined.

(** X13: the origin list is the lone wildcard exactly when the variable is
    unset or is exactly "*". *)
Theorem allow_origins_wildcard_iff (env : environ) :
  allow_origins env = [Py.lit "*"]
  <-> env "CORS_ALLOW_ORIGINS"%string = None
      \/ env "CORS_ALLOW_ORIGINS"%string = Some (Py.lit "*").
Proof.
  split.
  - intros H. apply (f_equal (Py.join [44%N])) in H.
    unfold allow_origins, Py.split_char in H.
    rewrite join_split_char_from in H. unfold getenv in H. simpl in H.
    destruct (env "CORS_ALLOW_ORIGINS"%string) as [v|]; [|now left].
    right. now f_equal.
  - unfold allow_origins, getenv. now intros [->| ->].
Qed.

Section SelectionOrder.
Context {A : Type}.
Variable key : A -> Z.

Lemma descending_app_cross (l1 l2 : list A) :
  descending key (l1 ++ l2) ->
  forall a b, In a l1 -> In b l2 -> key b <= key a.
Proof.
  unfold descending. induction l1 as [|x l1 IH]; simpl; intros H a b Ha Hb.
  - contradiction.
  - apply StronglySorted_inv in H as [Hs Hx]. destruct Ha as [->|Ha].
    + rewrite Forall_forall in Hx. apply Hx. apply in_or_app. now right.
    + now apply IH.
Qed.
End SelectionOrder.

(** X14: the predictions are a top selection: the predicted tokens and the
    tokens left out are together a rearrangement of the text's tokens, so no
    token is reported more often than it occurs, and no token left out is
    longer than a predicted one. *)
Theorem predictions_are_longest (text : Py.str) (top_k : Z) :
  exists rest,
    Permutation (map token (_simple_inference text top_k) ++ rest)
      (Py.split text)
    /\ Forall (fun p => Forall (fun u => Py.len u <= Py.len (token p)) rest)
         (_simple_inference text top_k).
Proof.
  rewrite simple_inference_unfold, map_token_scored.
  set (scored := Py.sorted Py.len true (Py.split text)).
  set (n := Z.to_nat (Z.max 1 top_k)).
  exists (skipn n scored). split.
  - rewrite firstn_skipn. apply sorted_reverse_perm.
  - pose proof (sorted_reverse_descending Py.len (Py.split text)) as Hd.
    fold scored in Hd. rewrite <- (firstn_skipn n scored) in Hd.
    apply Forall_forall. intros p Hp.
    apply in_map_iff in Hp as (t & <- & Ht). simpl.
    apply Forall_forall. intros u Hu.
    exact (descending_app_cross Py.len _ _ Hd t u Ht Hu).
Qed.
